(** * rAPId: the onboarding wizard and the discovery-to-execution pipeline

    The first part embeds the wizard of [web/app/page.tsx]: its React state
    (current step, completed steps, form data, progress, running flag), the
    event handlers of every control, and [generateCommand].  The second part
    models the pipeline stages the specification describes (normalizer,
    planner, execution engine) behind the command the wizard prints. *)

From Stdlib Require Import String Ascii List ZArith Bool Lia DecimalString DecimalPos Permutation.
Import ListNotations.

Local Open Scope string_scope.
Local Open Scope Z_scope.

(** ** JavaScript values used by the page *)

Module Js.

(** The double quote character, which the template literal of
    [generateCommand] puts around the free-text fields. *)
Definition dq : string := String "034"%char EmptyString.

(** ToBoolean on a string: only the empty string is falsy. *)
Definition truthy (s : string) : bool :=
  match s with
  | EmptyString => false
  | String _ _ => true
  end.

(** [Array.prototype.indexOf]: the first index holding [x], or [-1]. *)
Fixpoint indexOfFrom {A} (eqb : A -> A -> bool) (xs : list A) (x : A) (i : Z) : Z :=
  match xs with
  | [] => -1
  | y :: ys => if eqb y x then i else indexOfFrom eqb ys x (i + 1)
  end.

Definition indexOf {A} (eqb : A -> A -> bool) (xs : list A) (x : A) : Z :=
  indexOfFrom eqb xs x 0.

(** Array read [xs[i]]: [None] stands for [undefined]. *)
Definition at_ {A} (xs : list A) (i : Z) : option A :=
  if i <? 0 then None else nth_error xs (Z.to_nat i).

(** Number to string inside a template literal.  Integers are printed in
    decimal; this is what JavaScript does for every integer of magnitude
    below 10^21. *)
Definition numberToString (n : Z) : string :=
  NilZero.string_of_int (Z.to_int n).

(** *** [Number.parseInt] with no radix argument *)

Definition isWhiteSpace (c : ascii) : bool :=
  let n := nat_of_ascii c in
  ((9 <=? n) && (n <=? 13))%nat || (n =? 32)%nat || (n =? 160)%nat.

Fixpoint trimStart (s : string) : string :=
  match s with
  | String c s' => if isWhiteSpace c then trimStart s' else s
  | EmptyString => s
  end.

(** Value of a character as a digit of the given radix (10 or 16). *)
Definition digitValue (radix : Z) (c : ascii) : option Z :=
  let n := Z.of_nat (nat_of_ascii c) in
  let v :=
    if (48 <=? n) && (n <=? 57) then Some (n - 48)
    else if (97 <=? n) && (n <=? 102) then Some (n - 87)
    else if (65 <=? n) && (n <=? 70) then Some (n - 55)
    else None in
  match v with
  | Some d => if d <? radix then Some d else None
  | None => None
  end.

(** Reads the longest prefix of radix digits; [acc] is [None] until the
    first digit has been seen. *)
Fixpoint parseDigits (radix : Z) (s : string) (acc : option Z) : option Z :=
  match s with
  | EmptyString => acc
  | String c s' =>
      match digitValue radix c with
      | Some d =>
          parseDigits radix s'
            (Some (match acc with Some a => a * radix + d | None => d end))
      | None => acc
      end
  end.

(** [None] is NaN.  The integer is kept exact (a JavaScript number rounds
    it to the nearest double beyond 2^53); [-0] is [0]. *)
Definition parseInt (input : string) : option Z :=
  let s := trimStart input in
  let '(sign, s) :=
    match s with
    | String "-" s' => (-1, s')
    | String "+" s' => (1, s')
    | _ => (1, s)
    end in
  let '(radix, s) :=
    match s with
    | String "0" (String "x" s') => (16, s')
    | String "0" (String "X" s') => (16, s')
    | _ => (10, s)
    end in
  match parseDigits radix s None with
  | Some m => Some (sign * m)
  | None => None
  end.

(** [v || d] on numbers: NaN and zero are falsy. *)
Definition orElse (v : option Z) (d : Z) : Z :=
  match v with
  | Some n => if n =? 0 then d else n
  | None => d
  end.

(** Whether the character [c] occurs in [s]. *)
Fixpoint occurs (c : ascii) (s : string) : bool :=
  match s with
  | EmptyString => false
  | String x s' => Ascii.eqb x c || occurs c s'
  end.

(** [String.prototype.endsWith]. *)
Fixpoint endsWith (s suffix : string) : bool :=
  String.eqb s suffix ||
  match s with
  | EmptyString => false
  | String _ s' => endsWith s' suffix
  end.

(** [String.prototype.includes]. *)
Fixpoint includes (needle s : string) : bool :=
  prefix needle s ||
  match s with
  | EmptyString => false
  | String _ s' => includes needle s'
  end.

End Js.

(** ** The wizard of [web/app/page.tsx] *)

Module Wizard.

Import Js.

(** [const steps = [...] as const] and [type Step = (typeof steps)[number]]. *)
Inductive Step : Type :=
  | welcome | prerequisites | clone | setup
  | configure | consent | run | results.

Definition steps : list Step :=
  [welcome; prerequisites; clone; setup; configure; consent; run; results].

Definition Step_eqb (a b : Step) : bool :=
  match a, b with
  | welcome, welcome | prerequisites, prerequisites | clone, clone
  | setup, setup | configure, configure | consent, consent
  | run, run | results, results => true
  | _, _ => false
  end.

(** What a variable of type [Step] holds at run time: one of the eight
    literals, or [undefined] ([None]) if an array read went out of range. *)
Definition StepValue : Type := option Step.

Definition StepValue_eqb (a b : StepValue) : bool :=
  match a, b with
  | Some x, Some y => Step_eqb x y
  | None, None => true
  | _, _ => false
  end.

(** [steps.indexOf(v)] with strict equality: [undefined] is not found. *)
Definition stepIndex (v : StepValue) : Z :=
  indexOf StepValue_eqb (map Some steps) v.

Record FormData : Type := mkFormData {
  repoUrl : string;
  baseUrl : string;
  authHeader : string;
  unsafe : bool;
  ollamaModel : string;
  concurrency : Z;
  delayMs : Z
}.

(** The argument of [useState<FormData>], written again in the reset
    handler of the results screen. *)
Definition initialFormData : FormData :=
  {| repoUrl := "";
     baseUrl := "";
     authHeader := "";
     unsafe := false;
     ollamaModel := "llama3.2:latest";
     concurrency := 3;
     delayMs := 200 |}.

(** The [phases] table of [simulateRun] (progress values only). *)
Definition phases : list Z := [10; 30; 50; 60; 80; 100].

(** The running [setInterval] of [simulateRun]: its [currentPhase] counter
    and the [currentStep] its closure captured when Start was clicked. *)
Record Interval : Type := mkInterval {
  currentPhase : Z;
  capturedStep : StepValue
}.

(** The component state.  [completedSteps] is the [Set<Step>], kept as a
    duplicate-free list in insertion order.  [copiedStates] only drives the
    clipboard icons and is left out. *)
Record State : Type := mkState {
  currentStep : StepValue;
  completedSteps : list StepValue;
  formData : FormData;
  progress : Z;
  isRunning : bool;
  interval : option Interval
}.

Definition initialState : State :=
  {| currentStep := Some welcome;
     completedSteps := [];
     formData := initialFormData;
     progress := 0;
     isRunning := false;
     interval := None |}.

Definition setCurrentStep (v : StepValue) (w : State) : State :=
  {| currentStep := v;
     completedSteps := completedSteps w;
     formData := formData w;
     progress := progress w;
     isRunning := isRunning w;
     interval := interval w |}.

Definition setCompletedSteps (f : list StepValue -> list StepValue) (w : State) : State :=
  {| currentStep := currentStep w;
     completedSteps := f (completedSteps w);
     formData := formData w;
     progress := progress w;
     isRunning := isRunning w;
     interval := interval w |}.

Definition setFormData (f : FormData -> FormData) (w : State) : State :=
  {| currentStep := currentStep w;
     completedSteps := completedSteps w;
     formData := f (formData w);
     progress := progress w;
     isRunning := isRunning w;
     interval := interval w |}.

Definition setProgress (p : Z) (w : State) : State :=
  {| currentStep := currentStep w;
     completedSteps := completedSteps w;
     formData := formData w;
     progress := p;
     isRunning := isRunning w;
     interval := interval w |}.

Definition setIsRunning (b : bool) (w : State) : State :=
  {| currentStep := currentStep w;
     completedSteps := completedSteps w;
     formData := formData w;
     progress := progress w;
     isRunning := b;
     interval := interval w |}.

Definition setInterval (i : option Interval) (w : State) : State :=
  {| currentStep := currentStep w;
     completedSteps := completedSteps w;
     formData := formData w;
     progress := progress w;
     isRunning := isRunning w;
     interval := i |}.

(** [new Set([...prev, step])]. *)
Definition setAdd (step : StepValue) (prev : list StepValue) : list StepValue :=
  if existsb (StepValue_eqb step) prev then prev else prev ++ [step].

Definition completeStep (step : StepValue) (w : State) : State :=
  setCompletedSteps (setAdd step) w.

(** [nextStep] and [prevStep] read [currentStep] from the render that
    created them; [cur] is that captured value. *)
Definition nextStep (cur : StepValue) (w : State) : State :=
  let currentIndex := stepIndex cur in
  if currentIndex <? Z.of_nat (length steps) - 1
  then setCurrentStep (at_ steps (currentIndex + 1)) (completeStep cur w)
  else w.

Definition prevStep (cur : StepValue) (w : State) : State :=
  let currentIndex := stepIndex cur in
  if currentIndex >? 0
  then setCurrentStep (at_ steps (currentIndex - 1)) w
  else w.

(** *** [generateCommand] *)

Definition quoted (s : string) : string := (dq ++ s ++ dq)%string.

Definition generateCommand (fd : FormData) : string :=
  let cmd :=
    ("source .venv/bin/activate && python3 -m secagent.cli --repo " ++ quoted (repoUrl fd)
     ++ " --base-url " ++ quoted (baseUrl fd)
     ++ " --ollama-model " ++ quoted (ollamaModel fd)
     ++ " --concurrency " ++ numberToString (concurrency fd)
     ++ " --delay-ms " ++ numberToString (delayMs fd)
     ++ " --verbose")%string in
  let cmd :=
    if truthy (authHeader fd)
    then (cmd ++ " --auth-header " ++ quoted (authHeader fd))%string
    else cmd in
  let cmd := if unsafe fd then (cmd ++ " --unsafe")%string else cmd in
  cmd.

(** *** The form controls of the configure screen *)

Definition onRepoUrlChange (value : string) (prev : FormData) : FormData :=
  {| repoUrl := value; baseUrl := baseUrl prev; authHeader := authHeader prev;
     unsafe := unsafe prev; ollamaModel := ollamaModel prev;
     concurrency := concurrency prev; delayMs := delayMs prev |}.

Definition onBaseUrlChange (value : string) (prev : FormData) : FormData :=
  {| repoUrl := repoUrl prev; baseUrl := value; authHeader := authHeader prev;
     unsafe := unsafe prev; ollamaModel := ollamaModel prev;
     concurrency := concurrency prev; delayMs := delayMs prev |}.

Definition onAuthHeaderChange (value : string) (prev : FormData) : FormData :=
  {| repoUrl := repoUrl prev; baseUrl := baseUrl prev; authHeader := value;
     unsafe := unsafe prev; ollamaModel := ollamaModel prev;
     concurrency := concurrency prev; delayMs := delayMs prev |}.

Definition onModelChange (value : string) (prev : FormData) : FormData :=
  {| repoUrl := repoUrl prev; baseUrl := baseUrl prev; authHeader := authHeader prev;
     unsafe := unsafe prev; ollamaModel := value;
     concurrency := concurrency prev; delayMs := delayMs prev |}.

(** [concurrency: Number.parseInt(e.target.value) || 3]. *)
Definition onConcurrencyChange (value : string) (prev : FormData) : FormData :=
  {| repoUrl := repoUrl prev; baseUrl := baseUrl prev; authHeader := authHeader prev;
     unsafe := unsafe prev; ollamaModel := ollamaModel prev;
     concurrency := orElse (parseInt value) 3; delayMs := delayMs prev |}.

(** The argument of [onCheckedChange]: a boolean or ["indeterminate"]. *)
Inductive CheckedState : Type :=
  | Checked (b : bool)
  | Indeterminate.

(** [unsafe: !!checked]. *)
Definition onUnsafeChange (checked : CheckedState) (prev : FormData) : FormData :=
  {| repoUrl := repoUrl prev; baseUrl := baseUrl prev; authHeader := authHeader prev;
     unsafe := match checked with Checked b => b | Indeterminate => true end;
     ollamaModel := ollamaModel prev;
     concurrency := concurrency prev; delayMs := delayMs prev |}.

(** The [value]s of the [SelectItem]s of the AI model select. *)
Definition modelOptions : list string :=
  ["llama3.2:latest"; "llama3.1:latest"; "llama3:latest"; "llama3:8b";
   "llama3:70b"; "codellama:latest"; "codellama:7b"; "codellama:13b";
   "mistral:latest"; "gemma:latest"; "phi3:latest"]%string.

(** [disabled={!formData.repoUrl || !formData.baseUrl}] on Continue. *)
Definition continueDisabled (fd : FormData) : bool :=
  negb (truthy (repoUrl fd)) || negb (truthy (baseUrl fd)).

(** *** [simulateRun] and its timer *)

Definition simulateRun (cur : StepValue) (w : State) : State :=
  setInterval (Some {| currentPhase := 0; capturedStep := cur |})
    (setProgress 0 (setIsRunning true w)).

(** One firing of the interval callback. *)
Definition tick (w : State) : State :=
  match interval w with
  | None => w
  | Some iv =>
      if currentPhase iv <? Z.of_nat (length phases)
      then
        match at_ phases (currentPhase iv) with
        | Some p =>
            setInterval
              (Some {| currentPhase := currentPhase iv + 1;
                       capturedStep := capturedStep iv |})
              (setProgress p w)
        | None => w
        end
      else nextStep (capturedStep iv) (setIsRunning false (setInterval None w))
  end.

(** The onClick of "Run Another Analysis". *)
Definition runAnother (w : State) : State :=
  setFormData (fun _ => initialFormData)
    (setCompletedSteps (fun _ => []) (setCurrentStep (Some welcome) w)).

(** *** Events

    What the user (or the timer) can do to the page.  [renderStep] decides
    which controls exist on the current screen; a control that is not
    rendered, or is rendered [disabled], delivers no event. *)
Inductive Event : Type :=
  | ClickForward                       (* Get Started / Continue / ... *)
  | ClickBack
  | TypeRepoUrl (value : string)
  | TypeBaseUrl (value : string)
  | TypeAuthHeader (value : string)
  | SelectModel (value : string)
  | TypeConcurrency (value : string)
  | CheckUnsafe (checked : CheckedState)
  | ClickStart
  | ClickRunAnother
  | Tick.

Definition onConfigure (w : State) (f : FormData -> FormData) : State :=
  match currentStep w with
  | Some configure => setFormData f w
  | _ => w
  end.

Definition handle (e : Event) (w : State) : State :=
  match e with
  | ClickForward =>
      match currentStep w with
      | Some welcome | Some prerequisites | Some clone | Some setup | Some consent =>
          nextStep (currentStep w) w
      | Some configure =>
          if continueDisabled (formData w) then w else nextStep (currentStep w) w
      | _ => w
      end
  | ClickBack =>
      match currentStep w with
      | Some prerequisites | Some clone | Some setup | Some configure | Some consent =>
          prevStep (currentStep w) w
      | Some run => if isRunning w then w else prevStep (currentStep w) w
      | _ => w
      end
  | TypeRepoUrl v => onConfigure w (onRepoUrlChange v)
  | TypeBaseUrl v => onConfigure w (onBaseUrlChange v)
  | TypeAuthHeader v => onConfigure w (onAuthHeaderChange v)
  | SelectModel v =>
      if existsb (String.eqb v) modelOptions
      then onConfigure w (onModelChange v) else w
  | TypeConcurrency v => onConfigure w (onConcurrencyChange v)
  | CheckUnsafe c => onConfigure w (onUnsafeChange c)
  | ClickStart =>
      match currentStep w with
      | Some run => if isRunning w then w else simulateRun (currentStep w) w
      | _ => w
      end
  | ClickRunAnother =>
      match currentStep w with
      | Some results => runAnother w
      | _ => w
      end
  | Tick => tick w
  end.

(** The state after a sequence of events, oldest first. *)
Definition exec (es : list Event) (w : State) : State :=
  fold_left (fun st e => handle e st) es w.

(** Navigation calls alone, for statements about [nextStep]/[prevStep]. *)
Inductive NavCall : Type := CallNext | CallPrev.

Definition navigate (c : NavCall) (w : State) : State :=
  match c with
  | CallNext => nextStep (currentStep w) w
  | CallPrev => prevStep (currentStep w) w
  end.

Definition navigateAll (cs : list NavCall) (w : State) : State :=
  fold_left (fun st c => navigate c st) cs w.

(** The part of [renderStep] that calls [generateCommand]: only the run
    screen shows (and offers to copy) the command. *)
Definition renderedCommand (w : State) : option string :=
  match currentStep w with
  | Some run => Some (generateCommand (formData w))
  | _ => None
  end.

(** Two event sequences used as examples: a walk from the first screen to
    the run screen, and one that stops on the configure screen with only
    the repository URL typed in. *)
Definition walkToRun : list Event :=
  [ClickForward; ClickForward; ClickForward; ClickForward;
   TypeRepoUrl "https://github.com/u/api"; TypeBaseUrl "https://api.example.com";
   ClickForward; ClickForward].

Definition fillOnlyRepo : list Event :=
  [ClickForward; ClickForward; ClickForward; ClickForward;
   TypeRepoUrl "https://github.com/u/api"].

(** A repository URL that closes the quote opened by the template. *)
Definition injectedRepoUrl : string := ("x" ++ dq ++ " --unsafe " ++ dq)%string.

(** The flag whose presence in the command unlocks mutating requests. *)
Definition unsafeFlag : string := "--unsafe".

(** What holds of every state the page can be in: the step is defined; a
    timer runs only on the run screen, captured that screen, and goes with
    [isRunning]; and from the consent screen on, both required fields are
    filled in. *)
Definition Reachable (w : State) : Prop :=
  (exists s, currentStep w = Some s)
  /\ match interval w with
     | Some iv =>
         currentStep w = Some run /\ capturedStep iv = Some run
         /\ isRunning w = true
     | None => isRunning w = false
     end
  /\ (5 <= stepIndex (currentStep w) -> continueDisabled (formData w) = false).

End Wizard.

(** ** The discovery-to-execution pipeline

    The Python package behind the command the wizard prints is not among
    the sources; the definitions of this module follow sections 3 to 5 of
    the specification. *)

Module Pipeline.

(** *** Data model *)

Inductive ParamLocation : Type := InPath | InQuery | InBody.

Record Param : Type := mkParam {
  pname : string;
  plocation : ParamLocation;
  ptype : string
}.

Record EndpointCandidate : Type := mkCandidate {
  cmethod : string;
  cpath : string;
  detector : string;
  confidence : Z;
  cauth : option bool;          (* declared auth requirement, if known *)
  cparams : list Param;
  evidence : string
}.

Record Endpoint : Type := mkEndpoint {
  emethod : string;
  epath : string;
  authRequired : bool;
  eparams : list Param;
  provenance : list EndpointCandidate
}.

Inductive VulnClass : Type := BOLA | AuthBypass | JWTManipulation.

Inductive Mutation : Type :=
  | Baseline
  | IdDecrement
  | IdIncrement
  | ForeignId (id : string)
  | RandomUuid
  | StripAuthHeader
  | MalformedAuthHeader
  | JwtAlgNone
  | JwtBlankSignature
  | JwtFutureExpiry.

Record TestCase : Type := mkTestCase {
  endpoint : Endpoint;
  vulnClass : VulnClass;
  mutation : Mutation;
  mutating : bool;
  needsBaseline : bool          (* compares against the baseline of its group *)
}.

Record RunContext : Type := mkRunContext {
  concurrency : nat;
  delayMs : Z;
  timeoutMs : Z;
  unsafe : bool;
  authHeader : option string;
  baseUrl : string;
  modelName : string
}.

Inductive Outcome : Type :=
  | Vulnerable
  | NotVulnerable
  | Inconclusive
  | Error (reason : string)
  | UnsafeDisabled
  | Skipped.

Record TestResult : Type := mkTestResult {
  tcase : TestCase;
  httpStatus : option Z;
  latencyMs : Z;
  bodyDigest : string;
  classification : Outcome
}.

(** *** Normalizer (section 4.2) *)

Definition Key : Type := (string * string)%type.

Definition Key_eqb (a b : Key) : bool :=
  String.eqb (fst a) (fst b) && String.eqb (snd a) (snd b).

Definition toUpperChar (c : ascii) : ascii :=
  let n := nat_of_ascii c in
  if ((97 <=? n) && (n <=? 122))%nat then ascii_of_nat (n - 32) else c.

Fixpoint toUpper (s : string) : string :=
  match s with
  | EmptyString => EmptyString
  | String c s' => String (toUpperChar c) (toUpper s')
  end.

Fixpoint stripQuery (s : string) : string :=
  match s with
  | EmptyString => EmptyString
  | String c s' => if Ascii.eqb c "?" then EmptyString else String c (stripQuery s')
  end.

Fixpoint splitSegments (s : string) : list string :=
  match s with
  | EmptyString => [EmptyString]
  | String c s' =>
      if Ascii.eqb c "/" then EmptyString :: splitSegments s'
      else match splitSegments s' with
           | seg :: rest => String c seg :: rest
           | [] => [String c EmptyString]
           end
  end.

Fixpoint dropTrailingEmpty (segs : list string) : list string :=
  match segs with
  | [] => []
  | seg :: rest =>
      match dropTrailingEmpty rest with
      | [] => if String.eqb seg "" then [] else [seg]
      | kept => seg :: kept
      end
  end.

Definition placeholder : string := "{param}".

Section Normalizer.

(** The specification does not list the parameter syntaxes of the scanned
    frameworks; the recogniser of a parameter segment is left open. *)
Variable isPathParameter : string -> bool.

(** Modelled from the spec: the path half of the normalized key, missing
    with the normalizer's source.  Query string dropped, parameter segments
    replaced by the placeholder token, trailing slashes ignored. *)
Definition normalizePath (p : string) : string :=
  String.concat "/"
    (dropTrailingEmpty
       (map (fun seg => if isPathParameter seg then placeholder else seg)
            (splitSegments (stripQuery p)))).

(** Modelled from the spec: the normalized key of a candidate (method
    uppercased, path normalized), missing with the normalizer's source. *)
Definition candidateKey (c : EndpointCandidate) : Key :=
  (toUpper (cmethod c), normalizePath (cpath c)).

Definition endpointKey (e : Endpoint) : Key := (emethod e, epath e).

Definition sameParam (p q : Param) : bool :=
  String.eqb (pname p) (pname q) &&
  match plocation p, plocation q with
  | InPath, InPath | InQuery, InQuery | InBody, InBody => true
  | _, _ => false
  end.

(** Union of parameter sets; a type conflict resolves to [string]. *)
Fixpoint mergeParam (p : Param) (ps : list Param) : list Param :=
  match ps with
  | [] => [p]
  | q :: qs =>
      if sameParam p q
      then (if String.eqb (ptype p) (ptype q) then q
            else {| pname := pname q; plocation := plocation q; ptype := "string" |})
           :: qs
      else q :: mergeParam p qs
  end.

Definition mergeParams (new old : list Param) : list Param :=
  fold_left (fun acc p => mergeParam p acc) new old.

Definition claimsAuth (c : EndpointCandidate) : bool :=
  match cauth c with
  | Some true => true
  | _ => false
  end.

Definition fromCandidate (c : EndpointCandidate) : Endpoint :=
  {| emethod := fst (candidateKey c);
     epath := snd (candidateKey c);
     authRequired := claimsAuth c;
     eparams := mergeParams (cparams c) [];
     provenance := [c] |}.

Definition absorb (c : EndpointCandidate) (e : Endpoint) : Endpoint :=
  {| emethod := emethod e;
     epath := epath e;
     authRequired := authRequired e || claimsAuth c;
     eparams := mergeParams (cparams c) (eparams e);
     provenance := (provenance e ++ [c])%list |}.

(** Puts a candidate in the group of its key, opening a group if none. *)
Fixpoint addCandidate (c : EndpointCandidate) (groups : list Endpoint) : list Endpoint :=
  match groups with
  | [] => [fromCandidate c]
  | e :: rest =>
      if Key_eqb (endpointKey e) (candidateKey c)
      then absorb c e :: rest
      else e :: addCandidate c rest
  end.

Definition groupCandidates (cs : list EndpointCandidate) : list Endpoint :=
  fold_left (fun groups c => addCandidate c groups) cs [].

(** Canonical order: method, then path. *)
Definition keyLeb (a b : Key) : bool :=
  match String.compare (fst a) (fst b) with
  | Lt => true
  | Gt => false
  | Eq => String.leb (snd a) (snd b)
  end.

Fixpoint insertEndpoint (e : Endpoint) (sorted : list Endpoint) : list Endpoint :=
  match sorted with
  | [] => [e]
  | x :: rest =>
      if keyLeb (endpointKey e) (endpointKey x)
      then e :: sorted
      else x :: insertEndpoint e rest
  end.

Definition sortEndpoints (es : list Endpoint) : list Endpoint :=
  fold_right insertEndpoint [] es.

(** Modelled from the spec: the Normalizer, whose source is missing.  It
    groups the candidates by normalized key, merges each group into one
    Endpoint and emits the Endpoints in canonical order. *)
Definition normalize (cs : list EndpointCandidate) : list Endpoint :=
  sortEndpoints (groupCandidates cs).

End Normalizer.

(** *** Test planner (section 4.3) *)

Definition isSafeMethod (m : string) : bool :=
  existsb (String.eqb m) ["GET"; "HEAD"; "OPTIONS"]%string.

Section Planner.

(** Recognisers the specification names without defining, and the foreign
    identifier the caller may supply. *)
Variable looksLikeIdentifier : Param -> bool.
Variable looksLikeUuid : Param -> bool.
Variable carriesJwt : string -> bool.
Variable foreignId : option string.

(** Modelled from the spec: the mutating tag of the planner, whose source
    is missing: anything other than GET, HEAD and OPTIONS. *)
Definition isMutating (e : Endpoint) : bool := negb (isSafeMethod (emethod e)).

Definition testCase (e : Endpoint) (k : VulnClass) (m : Mutation) (dep : bool) : TestCase :=
  {| endpoint := e; vulnClass := k; mutation := m;
     mutating := isMutating e; needsBaseline := dep |}.

Definition identifierParams (e : Endpoint) : list Param :=
  filter (fun p => match plocation p with InPath => looksLikeIdentifier p | _ => false end)
         (eparams e).

Definition bolaCases (e : Endpoint) : list TestCase :=
  match identifierParams e with
  | [] => []
  | ids =>
      testCase e BOLA Baseline false ::
      map (fun m => testCase e BOLA m true)
          ([IdDecrement; IdIncrement]
           ++ match foreignId with Some i => [ForeignId i] | None => [] end
           ++ (if existsb looksLikeUuid ids then [RandomUuid] else []))%list
  end.

Definition authBypassCases (e : Endpoint) : list TestCase :=
  if authRequired e
  then map (fun m => testCase e AuthBypass m false) [StripAuthHeader; MalformedAuthHeader]
  else [].

Definition jwtCases (ctx : RunContext) (e : Endpoint) : list TestCase :=
  match authHeader ctx with
  | Some h =>
      if carriesJwt h
      then map (fun m => testCase e JWTManipulation m false)
               [JwtAlgNone; JwtBlankSignature; JwtFutureExpiry]
      else []
  | None => []
  end.

Definition casesFor (ctx : RunContext) (e : Endpoint) : list TestCase :=
  (bolaCases e ++ authBypassCases e ++ jwtCases ctx e)%list.

(** The safe-mode condition both layers apply. *)
Definition allowed (ctx : RunContext) (tc : TestCase) : bool :=
  unsafe ctx || negb (mutating tc).

(** Modelled from the spec: the Test Planner, whose source is missing.
    Cases are generated per endpoint and class, baseline first, and the
    mutating ones are left out of the plan unless the run is unsafe. *)
Definition plan (ctx : RunContext) (inventory : list Endpoint) : list TestCase :=
  filter (allowed ctx) (flat_map (casesFor ctx) inventory).

End Planner.

(** *** Execution engine (sections 4.4 and 5) *)

Inductive Worker : Type :=
  | Idle
  | Holding (tc : TestCase)                  (* pacing, or waiting for its baseline *)
  | InFlight (tc : TestCase) (retried : bool).

Record Engine : Type := mkEngine {
  queue : list TestCase;
  workers : list Worker;
  results : list TestResult;
  dispatched : list TestCase;                (* requests handed to the network layer *)
  aborted : bool
}.

Fixpoint replaceAt {A} (i : nat) (x : A) (xs : list A) : list A :=
  match xs, i with
  | [], _ => []
  | _ :: rest, O => x :: rest
  | y :: rest, S j => y :: replaceAt j x rest
  end.

Definition isInFlight (w : Worker) : bool :=
  match w with
  | InFlight _ _ => true
  | _ => false
  end.

Definition inFlight (st : Engine) : nat :=
  length (filter isInFlight (workers st)).

Definition Mutation_eqb (a b : Mutation) : bool :=
  match a, b with
  | Baseline, Baseline | IdDecrement, IdDecrement | IdIncrement, IdIncrement
  | RandomUuid, RandomUuid | StripAuthHeader, StripAuthHeader
  | MalformedAuthHeader, MalformedAuthHeader | JwtAlgNone, JwtAlgNone
  | JwtBlankSignature, JwtBlankSignature | JwtFutureExpiry, JwtFutureExpiry => true
  | ForeignId x, ForeignId y => String.eqb x y
  | _, _ => false
  end.

(** A dependent case may be issued once the baseline of its endpoint has a
    recorded result. *)
Definition baselineReady (tc : TestCase) (rs : list TestResult) : bool :=
  negb (needsBaseline tc)
  || existsb (fun r =>
        Mutation_eqb (mutation (tcase r)) Baseline
        && String.eqb (emethod (endpoint (tcase r))) (emethod (endpoint tc))
        && String.eqb (epath (endpoint (tcase r))) (epath (endpoint tc)))
      rs.

Definition outcomeResult (tc : TestCase) (o : Outcome) : TestResult :=
  {| tcase := tc; httpStatus := None; latencyMs := 0; bodyDigest := ""; classification := o |}.

Definition dispatchedMutating (st : Engine) : nat :=
  length (filter mutating (dispatched st)).

Section Engine.

Variable ctx : RunContext.

(** How a response is classified (sections 4.3 and 4.4 give the policy per
    class; no claim here depends on it). *)
Variable classify : TestCase -> list TestResult -> Z -> string -> Outcome.

(** Modelled from the spec: the engine before any work, whose source is
    missing: a pool of [concurrency] idle workers and the plan as queue. *)
Definition start (thePlan : list TestCase) : Engine :=
  {| queue := thePlan;
     workers := repeat Idle (concurrency ctx);
     results := [];
     dispatched := [];
     aborted := false |}.

(** Modelled from the spec: the moves of the Execution Engine, whose source
    is missing.  Workers act in any interleaving; time is abstracted to the
    order of the moves. *)
Inductive step : Engine -> Engine -> Prop :=
  | Reject (st : Engine) (i : nat) (tc : TestCase) (rest : list TestCase) :
      queue st = tc :: rest ->
      nth_error (workers st) i = Some Idle ->
      aborted st = false ->
      allowed ctx tc = false ->
      step st {| queue := rest;
                 workers := workers st;
                 results := (results st ++ [outcomeResult tc UnsafeDisabled])%list;
                 dispatched := dispatched st;
                 aborted := aborted st |}
  | Take (st : Engine) (i : nat) (tc : TestCase) (rest : list TestCase) :
      queue st = tc :: rest ->
      nth_error (workers st) i = Some Idle ->
      aborted st = false ->
      allowed ctx tc = true ->
      step st {| queue := rest;
                 workers := replaceAt i (Holding tc) (workers st);
                 results := results st;
                 dispatched := dispatched st;
                 aborted := aborted st |}
  | Issue (st : Engine) (i : nat) (tc : TestCase) :
      nth_error (workers st) i = Some (Holding tc) ->
      aborted st = false ->
      baselineReady tc (results st) = true ->
      step st {| queue := queue st;
                 workers := replaceAt i (InFlight tc false) (workers st);
                 results := results st;
                 dispatched := (dispatched st ++ [tc])%list;
                 aborted := aborted st |}
  | Respond (st : Engine) (i : nat) (tc : TestCase) (retried : bool)
            (status latency : Z) (digest : string) :
      nth_error (workers st) i = Some (InFlight tc retried) ->
      step st {| queue := queue st;
                 workers := replaceAt i Idle (workers st);
                 results := (results st ++
                             [{| tcase := tc; httpStatus := Some status;
                                 latencyMs := latency; bodyDigest := digest;
                                 classification := classify tc (results st) status digest |}])%list;
                 dispatched := dispatched st;
                 aborted := aborted st |}
  | TimeOut (st : Engine) (i : nat) (tc : TestCase) (retried : bool) :
      nth_error (workers st) i = Some (InFlight tc retried) ->
      step st {| queue := queue st;
                 workers := replaceAt i Idle (workers st);
                 results := (results st ++ [outcomeResult tc (Error "timeout")])%list;
                 dispatched := dispatched st;
                 aborted := aborted st |}
  | Retry (st : Engine) (i : nat) (tc : TestCase) :
      nth_error (workers st) i = Some (InFlight tc false) ->
      step st {| queue := queue st;
                 workers := replaceAt i (InFlight tc true) (workers st);
                 results := results st;
                 dispatched := (dispatched st ++ [tc])%list;
                 aborted := aborted st |}
  | GiveUp (st : Engine) (i : nat) (tc : TestCase) :
      nth_error (workers st) i = Some (InFlight tc true) ->
      step st {| queue := queue st;
                 workers := replaceAt i Idle (workers st);
                 results := (results st ++ [outcomeResult tc (Error "network")])%list;
                 dispatched := dispatched st;
                 aborted := aborted st |}
  | Abort (st : Engine) :
      aborted st = false ->
      step st {| queue := [];
                 workers := workers st;
                 results := (results st ++ map (fun tc => outcomeResult tc Skipped) (queue st))%list;
                 dispatched := dispatched st;
                 aborted := true |}
  | Release (st : Engine) (i : nat) (tc : TestCase) :
      nth_error (workers st) i = Some (Holding tc) ->
      aborted st = true ->
      step st {| queue := queue st;
                 workers := replaceAt i Idle (workers st);
                 results := (results st ++ [outcomeResult tc Skipped])%list;
                 dispatched := dispatched st;
                 aborted := aborted st |}.

(** The case a worker holds or has in flight passed the safe-mode gate. *)
Definition workerAllowed (w : Worker) : Prop :=
  match w with
  | Idle => True
  | Holding tc | InFlight tc _ => allowed ctx tc = true
  end.

Definition gated (st : Engine) : Prop :=
  Forall workerAllowed (workers st)
  /\ Forall (fun tc => allowed ctx tc = true) (dispatched st).

(** The states a run passes through. *)
Inductive reachable (thePlan : list TestCase) : Engine -> Prop :=
  | reach_start : reachable thePlan (start thePlan)
  | reach_step (st st' : Engine) :
      reachable thePlan st -> step st st' -> reachable thePlan st'.

End Engine.

(** Sample data for the examples below. *)
Definition sampleEndpoint (m : string) : Endpoint :=
  {| emethod := m; epath := "/users/{param}"; authRequired := true;
     eparams := [{| pname := "id"; plocation := InPath; ptype := "integer" |}];
     provenance := [] |}.

Definition sampleContext (n : nat) (u : bool) : RunContext :=
  {| concurrency := n; delayMs := 200; timeoutMs := 8000; unsafe := u;
     authHeader := None; baseUrl := "https://api.example.com"; modelName := "llama3" |}.

Definition sampleCandidates : list EndpointCandidate :=
  [ {| cmethod := "get"; cpath := "/users/:id/"; detector := "express"; confidence := 80;
       cauth := None; cparams := [{| pname := "id"; plocation := InPath; ptype := "string" |}];
       evidence := "routes.js:10" |};
    {| cmethod := "GET"; cpath := "/users/{id}?verbose=1"; detector := "openapi"; confidence := 100;
       cauth := Some true; cparams := [{| pname := "id"; plocation := InPath; ptype := "integer" |}];
       evidence := "openapi.yaml" |};
    {| cmethod := "DELETE"; cpath := "/users/{id}"; detector := "openapi"; confidence := 100;
       cauth := Some true; cparams := [{| pname := "id"; plocation := InPath; ptype := "integer" |}];
       evidence := "openapi.yaml" |} ].

Definition sampleIsParameter (seg : string) : bool :=
  prefix ":" seg || prefix "{" seg.

Definition sampleClassify (tc : TestCase) (rs : list TestResult) (status : Z)
           (digest : string) : Outcome :=
  if (200 <=? status) && (status <? 300) then Vulnerable else NotVulnerable.

Definition getCase : TestCase :=
  testCase (sampleEndpoint "GET") AuthBypass StripAuthHeader false.

Definition deleteCase : TestCase :=
  testCase (sampleEndpoint "DELETE") AuthBypass StripAuthHeader false.

(** A safe-mode engine with two workers after it was handed the unfiltered
    plan [deleteCase; getCase], refused the first and issued the second. *)
Definition sampleRunning : Engine :=
  {| queue := [];
     workers := [InFlight getCase false; Idle];
     results := [outcomeResult deleteCase UnsafeDisabled];
     dispatched := [getCase];
     aborted := false |}.

End Pipeline.

(** ** More of the page: the run screen's progress text, and the
    predicates used to state what the handlers preserve *)

Module WizardView.

Import Js Wizard.

(** The [phases] table of [simulateRun], names included. *)
Definition phaseTable : list (string * Z) :=
  [("Repository Ingestion", 10); ("Endpoint Discovery", 30);
   ("Normalization", 50); ("Test Planning", 60);
   ("Security Testing", 80); ("AI Report Generation", 100)].

(** The text under the progress bar of the run screen.  Each line of the
    JSX is [{cond && "text"}], which renders the text when [cond] holds and
    nothing otherwise; the result lists what is rendered, top to bottom.
    Strings hold the bytes of the source text. *)
Definition progressLabels (progress : Z) : list string :=
  ((if progress <=? 10 then ["📥 Repository Ingestion..."] else [])
   ++ (if (progress >? 10) && (progress <=? 30) then ["🔍 Endpoint Discovery..."] else [])
   ++ (if (progress >? 30) && (progress <=? 50) then ["📊 Normalization..."] else [])
   ++ (if (progress >? 50) && (progress <=? 60) then ["📋 Test Planning..."] else [])
   ++ (if (progress >? 60) && (progress <=? 80) then ["🧪 Security Testing..."] else [])
   ++ (if progress >? 80 then ["📄 AI Report Generation..."] else []))%list.

(** The option that adds the authentication header to the command. *)
Definition authFlag : string := "--auth-header".

(** What no control of the page can break in the form. *)
Definition formOk (fd : FormData) : Prop :=
  delayMs fd = 200
  /\ concurrency fd <> 0
  /\ In (ollamaModel fd) modelOptions.

(** What the handlers keep true of the set of completed steps: no
    duplicate, no [undefined], never "results", and every step before the
    current one. *)
Definition completedOk (w : State) : Prop :=
  NoDup (completedSteps w)
  /\ ~ In None (completedSteps w)
  /\ ~ In (Some results) (completedSteps w)
  /\ forall s, stepIndex (Some s) < stepIndex (currentStep w) ->
               In (Some s) (completedSteps w).

(** Two states that differ at most in [progress]. *)
Definition sameButProgress (a b : State) : Prop :=
  currentStep a = currentStep b
  /\ completedSteps a = completedSteps b
  /\ formData a = formData b
  /\ isRunning a = isRunning b
  /\ interval a = interval b.


(** [n] firings of the timer. *)
Definition ticks (n : nat) : list Event := repeat Tick n.


End WizardView.

(** ** Facts about the JavaScript helpers *)

Module JsFacts.

Import Js.

Example numberToString_3 : numberToString 3 = "3".
Proof. reflexivity. Qed.

Example numberToString_neg : numberToString (-12) = "-12".
Proof. reflexivity. Qed.

Example numberToString_0 : numberToString 0 = "0".
Proof. reflexivity. Qed.

Example parseInt_50 : parseInt "50" = Some 50.
Proof. reflexivity. Qed.

Example parseInt_hex : parseInt " 0x1F" = Some 31.
Proof. reflexivity. Qed.

Example parseInt_float_text : parseInt "7.9" = Some 7.
Proof. reflexivity. Qed.

Example parseInt_empty : parseInt "" = None.
Proof. reflexivity. Qed.

Example parseInt_letters : parseInt "abc" = None.
Proof. reflexivity. Qed.

Example parseInt_negative : parseInt "-4" = Some (-4).
Proof. reflexivity. Qed.

Lemma append_assoc (a b c : string) :
  ((a ++ b) ++ c)%string = (a ++ (b ++ c))%string.
Proof.
  induction a as [|x a IH]; simpl; [reflexivity | now rewrite IH].
Qed.

Lemma append_empty_r (a : string) : (a ++ "")%string = a.
Proof.
  induction a as [|x a IH]; simpl; [reflexivity | now rewrite IH].
Qed.

Lemma prefix_empty_r (n : string) : n <> "" -> prefix n "" = false.
Proof. destruct n; [congruence | reflexivity]. Qed.

(** A character foreign to the needle cuts every match that would run
    over it. *)
Lemma prefix_sep (c : ascii) (b : string) :
  forall a n, occurs c n = false ->
  prefix n (a ++ String c b) = prefix n a.
Proof.
  induction a as [|y a IH]; intros [|x n] Hc; simpl in *; try reflexivity.
  - apply orb_false_elim in Hc as [Hx _].
    destruct (ascii_dec x c) as [->|_]; [|reflexivity].
    now rewrite Ascii.eqb_refl in Hx.
  - apply orb_false_elim in Hc as [_ Hn].
    destruct (ascii_dec x y); [now apply IH | reflexivity].
Qed.

Lemma includes_empty_r (n : string) : n <> "" -> includes n "" = false.
Proof. intros Hn. cbn [includes]. now rewrite (prefix_empty_r n Hn). Qed.

Lemma includes_sep (n : string) (c : ascii) (b : string) :
  n <> "" -> occurs c n = false ->
  forall a, includes n (a ++ String c b) = includes n a || includes n b.
Proof.
  intros Hn Hc. induction a as [|y a IH].
  - rewrite (includes_empty_r n Hn). cbn [append includes orb].
    change (String c b) with ("" ++ String c b)%string at 1.
    rewrite prefix_sep by assumption. now rewrite (prefix_empty_r n Hn).
  - cbn [append includes].
    change (String y (a ++ String c b)) with (String y a ++ String c b)%string.
    rewrite prefix_sep by assumption. now rewrite IH, orb_assoc.
Qed.

Lemma includes_sep_head (n : string) (c : ascii) (b : string) :
  n <> "" -> occurs c n = false ->
  includes n (String c b) = includes n b.
Proof.
  intros Hn Hc.
  change (String c b) with ("" ++ String c b)%string.
  rewrite includes_sep by assumption. now rewrite (includes_empty_r n Hn).
Qed.

Lemma prefix_occurs (c : ascii) :
  forall s n, prefix n s = true -> occurs c n = true -> occurs c s = true.
Proof.
  induction s as [|y s IH]; intros [|x n] Hp Hc; simpl in *; try discriminate.
  destruct (ascii_dec x y) as [->|_]; [|discriminate].
  apply orb_true_iff in Hc as [Hc|Hc]; apply orb_true_iff; [now left|].
  right. now apply (IH n).
Qed.

(** A match of the needle brings every character of the needle with it. *)
Lemma includes_occurs (c : ascii) (n : string) :
  occurs c n = true ->
  forall s, includes n s = true -> occurs c s = true.
Proof.
  intros Hc. induction s as [|y s IH]; simpl; intros H.
  - rewrite orb_false_r in H. now apply (prefix_occurs c "" n).
  - apply orb_true_iff in H as [H|H].
    + now apply (prefix_occurs c (String y s) n).
    + apply orb_true_iff. right. now apply IH.
Qed.

Lemma prefix_refl_app (n b : string) : prefix n (n ++ b) = true.
Proof.
  induction n as [|x n IH]; simpl; [now destruct b|].
  destruct (ascii_dec x x); [assumption | congruence].
Qed.

Lemma includes_app_r (n b : string) :
  forall a, includes n b = true -> includes n (a ++ b) = true.
Proof.
  induction a as [|y a IH]; intros H; simpl.
  - exact H.
  - apply orb_true_iff. right. now apply IH.
Qed.

Lemma endsWith_app (suffix : string) :
  forall a, endsWith (a ++ suffix) suffix = true.
Proof.
  induction a as [|y a IH]; simpl.
  - destruct suffix; simpl; [reflexivity|].
    now rewrite Ascii.eqb_refl, String.eqb_refl.
  - rewrite IH. apply orb_true_r.
Qed.

(** Decimal digits and the minus sign are all a printed integer holds. *)
Lemma string_of_uint_chars (c : ascii) (d : Decimal.uint) :
  occurs c (NilEmpty.string_of_uint d) = true -> occurs c "0123456789" = true.
Proof.
  induction d; cbn [NilEmpty.string_of_uint occurs]; intros H;
    try discriminate;
    (apply orb_true_iff in H as [H|H]; [|now apply IHd]);
    apply Ascii.eqb_eq in H; subst c; reflexivity.
Qed.

Lemma numberToString_chars (c : ascii) (z : Z) :
  occurs c (numberToString z) = true -> occurs c "-0123456789" = true.
Proof.
  unfold numberToString, NilZero.string_of_int, NilZero.string_of_uint.
  assert (Hz : occurs c "0" = true -> occurs c "-0123456789" = true).
  { cbn [occurs]. intros H. apply orb_true_iff in H as [H|H]; [|discriminate].
    apply Ascii.eqb_eq in H. subst c. reflexivity. }
  assert (Hu : forall d, occurs c (NilEmpty.string_of_uint d) = true ->
                         occurs c "-0123456789" = true).
  { intros d H. apply string_of_uint_chars in H.
    cbn [occurs]. apply orb_true_iff. now right. }
  destruct (Z.to_int z) as [d|d].
  - destruct d; [exact Hz | exact (Hu _) ..].
  - cbn [occurs]. intros H. apply orb_true_iff in H as [H|H].
    + apply Ascii.eqb_eq in H. subst c. reflexivity.
    + destruct d; [now apply Hz | exact (Hu _ H) ..].
Qed.

Lemma includes_numberToString (n : string) (c : ascii) (z : Z) :
  occurs c n = true -> occurs c "-0123456789" = false ->
  includes n (numberToString z) = false.
Proof.
  intros Hn Hc. destruct (includes n (numberToString z)) eqn:E; [|reflexivity].
  apply (includes_occurs c n Hn) in E. apply numberToString_chars in E.
  congruence.
Qed.

(** *** Parsing a printed integer gives the integer back *)







End JsFacts.

(** ** Facts about the wizard *)

Module WizardFacts.

Import Js JsFacts Wizard.

Example generateCommand_default :
  generateCommand initialFormData =
  ("source .venv/bin/activate && python3 -m secagent.cli --repo " ++ dq ++ dq
   ++ " --base-url " ++ dq ++ dq ++ " --ollama-model " ++ dq ++ "llama3.2:latest"
   ++ dq ++ " --concurrency 3 --delay-ms 200 --verbose")%string.
Proof. reflexivity. Qed.

Example walk_to_consent :
  currentStep
    (exec [ClickForward; ClickForward; ClickForward; ClickForward;
           TypeRepoUrl "r"; TypeBaseUrl "b"; ClickForward] initialState)
  = Some consent.
Proof. reflexivity. Qed.

Example continue_blocked :
  currentStep
    (exec [ClickForward; ClickForward; ClickForward; ClickForward;
           TypeRepoUrl "r"; ClickForward] initialState)
  = Some configure.
Proof. reflexivity. Qed.

Example full_run :
  currentStep
    (exec [ClickForward; ClickForward; ClickForward; ClickForward;
           TypeRepoUrl "r"; TypeBaseUrl "b"; ClickForward; ClickForward;
           ClickStart; Tick; Tick; Tick; Tick; Tick; Tick; Tick] initialState)
  = Some results.
Proof. reflexivity. Qed.

(** *** The initial configuration *)

(** C4, as the claim words it: the initial AI model name is not [llama3],
    so the four documented defaults do not all hold of the initial form. *)
Lemma initial_model_is_not_llama3 :
  ~ (unsafe (formData initialState) = false
     /\ concurrency (formData initialState) = 3
     /\ delayMs (formData initialState) = 200
     /\ ollamaModel (formData initialState) = "llama3").
Proof. intros (_ & _ & _ & H). discriminate H. Qed.

(** C4, amended: the wizard starts (and restarts after "Run Another
    Analysis") with unsafe off, concurrency 3, delay 200 ms, and the model
    [llama3.2:latest], which is one of the options of the model select. *)
Theorem initial_configuration :
  unsafe (formData initialState) = false
  /\ concurrency (formData initialState) = 3
  /\ delayMs (formData initialState) = 200
  /\ ollamaModel (formData initialState) = "llama3.2:latest"
  /\ In (ollamaModel (formData initialState)) modelOptions
  /\ forall w, formData (runAnother w) = formData initialState.
Proof. cbn. intuition. Qed.

(** *** Step navigation *)

Lemma Step_in_steps (s : Step) : In s steps.
Proof. destruct s; cbn; tauto. Qed.

Lemma stepIndex_range (s : Step) : 0 <= stepIndex (Some s) <= 7.
Proof. destruct s; cbn; lia. Qed.

Lemma stepIndex_undefined : stepIndex None = -1.
Proof. reflexivity. Qed.

Lemma at_stepIndex (s : Step) : at_ steps (stepIndex (Some s)) = Some s.
Proof. destruct s; reflexivity. Qed.

Lemma navigate_defined (c : NavCall) (w : State) :
  (exists s, currentStep w = Some s) ->
  exists s', currentStep (navigate c w) = Some s'.
Proof.
  intros [s Hs]. unfold navigate. rewrite Hs.
  destruct c, s; cbn; eauto; eexists; reflexivity.
Qed.

Lemma navigateAll_defined (cs : list NavCall) :
  forall w, (exists s, currentStep w = Some s) ->
  exists s', currentStep (navigateAll cs w) = Some s'.
Proof.
  induction cs as [|c cs IH]; intros w Hw; cbn.
  - exact Hw.
  - apply IH. now apply navigate_defined.
Qed.

(** C8: whatever sequence of [nextStep]/[prevStep] calls is made from a
    state whose step is one of the eight, the current step is still one of
    the eight, with index between 0 and 7; [nextStep] on "results" and
    [prevStep] on "welcome" change nothing. *)
Theorem step_stays_in_list (cs : list NavCall) (w : State) :
  (exists s, currentStep w = Some s) ->
  (exists s', currentStep (navigateAll cs w) = Some s'
              /\ In s' steps
              /\ 0 <= stepIndex (currentStep (navigateAll cs w)) <= 7)
  /\ (currentStep w = Some results -> navigate CallNext w = w)
  /\ (currentStep w = Some welcome -> navigate CallPrev w = w).
Proof.
  intros Hw. split; [|split].
  - destruct (navigateAll_defined cs w Hw) as [s' Hs'].
    exists s'. rewrite Hs'.
    split; [reflexivity|]. split; [apply Step_in_steps | apply stepIndex_range].
  - intros H. unfold navigate. now rewrite H.
  - intros H. unfold navigate. now rewrite H.
Qed.

Lemma step_stays_in_list_witness :
  (exists s', currentStep (navigateAll [CallNext; CallNext; CallPrev] initialState) = Some s'
              /\ In s' steps
              /\ 0 <= stepIndex (currentStep (navigateAll [CallNext; CallNext; CallPrev] initialState)) <= 7)
  /\ (currentStep initialState = Some results -> navigate CallNext initialState = initialState)
  /\ (currentStep initialState = Some welcome -> navigate CallPrev initialState = initialState).
Proof.
  apply (step_stays_in_list [CallNext; CallNext; CallPrev] initialState).
  exists welcome. reflexivity.
Defined.

(** *** Reachable states *)

Lemma initial_Reachable : Reachable initialState.
Proof.
  split; [now exists welcome|]. split; [reflexivity|].
  cbn. lia.
Qed.

Ltac step_cases :=
  repeat match goal with
  | |- context [if ?b then _ else _] => destruct b eqn:?
  | |- context [match at_ phases ?i with _ => _ end] => destruct (at_ phases i) eqn:?
  end.

Lemma handle_Reachable (e : Event) (w : State) :
  Reachable w -> Reachable (handle e w).
Proof.
  intros ([s Hs] & Hiv & Hform).
  destruct w as [cur comp fd prog running iv]. cbn in Hs, Hiv, Hform. subst cur.
  assert (Hidx : forall P : Prop, (5 <= 4 -> P)) by (intros; lia).
  destruct e, s, iv as [[ph cap]|]; cbn [currentPhase capturedStep] in *.
  all: try (destruct Hiv as (Hrun & Hcap & Hr); try discriminate Hrun; subst cap).
  all: subst running.
  all: cbn [handle onConfigure tick currentStep formData isRunning interval
            currentPhase capturedStep].
  all: step_cases; try discriminate.
  all: unfold Reachable; cbn; repeat split; eauto; try lia; try discriminate.
  all: try (eexists; reflexivity).
  all: try (intros; exact Hform || (apply Hform; cbn; lia)).
Qed.

Lemma exec_snoc (es : list Event) (e : Event) (w : State) :
  exec (es ++ [e])%list w = handle e (exec es w).
Proof. unfold exec. now rewrite fold_left_app. Qed.

Lemma exec_Reachable (es : list Event) :
  forall w, Reachable w -> Reachable (exec es w).
Proof.
  induction es as [|e es IH]; intros w Hw; cbn.
  - exact Hw.
  - apply IH. now apply handle_Reachable.
Qed.

(** Every event leaves the step alone, moves it one place forward or
    backward in [steps], or resets it to "welcome". *)
Lemma handle_step (e : Event) (w : State) :
  Reachable w ->
  let i := stepIndex (currentStep w) in
  currentStep (handle e w) = currentStep w
  \/ (i < 7 /\ currentStep (handle e w) = at_ steps (i + 1))
  \/ (0 < i /\ currentStep (handle e w) = at_ steps (i - 1))
  \/ currentStep (handle e w) = Some welcome.
Proof.
  intros ([s Hs] & Hiv & _).
  destruct w as [cur comp fd prog running iv]. cbn in Hs, Hiv. subst cur.
  destruct e, s, iv as [[ph cap]|]; cbn [currentPhase capturedStep] in *.
  all: try (destruct Hiv as (Hrun & Hcap & Hr); try discriminate Hrun; subst cap).
  all: subst running.
  all: cbn [handle onConfigure tick currentStep formData isRunning interval
            currentPhase capturedStep].
  all: step_cases; try discriminate.
  all: try (left; reflexivity).
  all: try (right; left; split; [cbn; lia | reflexivity]).
  all: try (right; right; left; split; [cbn; lia | reflexivity]).
  all: right; right; right; reflexivity.
Qed.

Lemma stepIndex_5 (v : StepValue) : stepIndex v = 5 -> v = Some consent.
Proof. destruct v as [[]|]; cbn; intros H; try reflexivity; lia. Qed.

Lemma stepIndex_at (i : Z) :
  0 <= i <= 7 -> stepIndex (at_ steps i) = i.
Proof.
  intros H.
  assert (C : i = 0 \/ i = 1 \/ i = 2 \/ i = 3 \/ i = 4 \/ i = 5 \/ i = 6 \/ i = 7) by lia.
  destruct C as [->|[->|[->|[->|[->|[->|[->| ->]]]]]]]; reflexivity.
Qed.

Lemma handle_step_index (e : Event) (w : State) :
  Reachable w ->
  stepIndex (currentStep (handle e w)) <= stepIndex (currentStep w) + 1.
Proof.
  intros Hw. pose proof (handle_step e w Hw) as H. cbv zeta in H.
  destruct Hw as ([s Hs] & _). pose proof (stepIndex_range s) as Hr.
  rewrite Hs in *.
  destruct H as [->|[[Hi ->]|[[Hi ->]| ->]]].
  - lia.
  - rewrite stepIndex_at; lia.
  - rewrite stepIndex_at; lia.
  - change (stepIndex (Some welcome)) with 0. lia.
Qed.

Lemma consent_before_later_steps (es : list Event) :
  5 <= stepIndex (currentStep (exec es initialState)) ->
  exists before after,
    es = (before ++ after)%list
    /\ currentStep (exec before initialState) = Some consent.
Proof.
  induction es as [|e es IH] using rev_ind; intros H.
  - cbn in H. lia.
  - rewrite exec_snoc in H.
    pose proof (handle_step_index e _ (exec_Reachable es _ initial_Reachable)) as Hle.
    destruct (Z_le_gt_dec 5 (stepIndex (currentStep (exec es initialState)))) as [Hold|Hold].
    + destruct (IH Hold) as (before & after & -> & Hc).
      exists before, (after ++ [e])%list. split; [now rewrite app_assoc | exact Hc].
    + exists (es ++ [e])%list, []. split; [now rewrite app_nil_r|].
      rewrite exec_snoc. apply stepIndex_5. lia.
Qed.

(** *** The consent screen comes before the run screen *)

(** C9: the run screen is current only after the consent screen has been
    current (some earlier prefix of the events ended on "consent"), because
    every event keeps the step, moves it by one place along [steps], or
    resets it to "welcome". *)
Theorem run_only_after_consent (es : list Event) (e : Event) :
  let w := exec es initialState in
  let i := stepIndex (currentStep w) in
  (currentStep (handle e w) = currentStep w
   \/ (i < 7 /\ currentStep (handle e w) = at_ steps (i + 1))
   \/ (0 < i /\ currentStep (handle e w) = at_ steps (i - 1))
   \/ currentStep (handle e w) = Some welcome)
  /\ at_ steps (stepIndex (Some consent) + 1) = Some run
  /\ (currentStep w = Some run ->
      exists before after,
        es = (before ++ after)%list
        /\ after <> []
        /\ currentStep (exec before initialState) = Some consent).
Proof.
  intros w i. split; [|split].
  - apply handle_step. apply exec_Reachable, initial_Reachable.
  - reflexivity.
  - intros Hrun.
    destruct (consent_before_later_steps es) as (before & after & Hes & Hc).
    { fold w. rewrite Hrun. cbn. lia. }
    exists before, after. repeat split; try assumption.
    intros ->. rewrite app_nil_r in Hes. subst before.
    fold w in Hc. congruence.
Qed.

Lemma run_only_after_consent_witness :
  exists before after,
    walkToRun = (before ++ after)%list
    /\ after <> []
    /\ currentStep (exec before initialState) = Some consent.
Proof.
  apply (proj2 (proj2 (run_only_after_consent walkToRun Tick))).
  reflexivity.
Defined.

(** *** The required fields *)

Lemma truthy_false (s : string) : truthy s = false <-> s = "".
Proof. destruct s; cbn; split; congruence. Qed.

Lemma continueDisabled_iff (fd : FormData) :
  continueDisabled fd = true <-> repoUrl fd = "" \/ baseUrl fd = "".
Proof.
  unfold continueDisabled. rewrite orb_true_iff, !negb_true_iff, !truthy_false.
  reflexivity.
Qed.

Lemma continueDisabled_false (fd : FormData) :
  continueDisabled fd = false -> repoUrl fd <> "" /\ baseUrl fd <> "".
Proof.
  intros H. split; intros E;
    assert (D : continueDisabled fd = true) by (apply continueDisabled_iff; auto);
    congruence.
Qed.

(** C5: the Continue button of the configure screen is disabled exactly
    when the repository URL or the API base URL is empty, and a disabled
    button leaves the wizard on that screen; so in every state the page can
    reach, the run screen (the only one that generates the command and
    offers Start) is shown with both values filled in. *)
Theorem required_fields_gate (es : list Event) :
  let w := exec es initialState in
  (continueDisabled (formData w) = true
   <-> repoUrl (formData w) = "" \/ baseUrl (formData w) = "")
  /\ (currentStep w = Some configure ->
      repoUrl (formData w) = "" \/ baseUrl (formData w) = "" ->
      handle ClickForward w = w)
  /\ (forall cmd, renderedCommand w = Some cmd ->
      repoUrl (formData w) <> "" /\ baseUrl (formData w) <> "")
  /\ (handle ClickStart w <> w ->
      repoUrl (formData w) <> "" /\ baseUrl (formData w) <> "").
Proof.
  intros w.
  assert (Hw : Reachable w) by apply exec_Reachable, initial_Reachable.
  destruct Hw as (_ & _ & Hform).
  split; [apply continueDisabled_iff|]. split; [|split].
  - intros Hc He. apply continueDisabled_iff in He.
    cbn [handle]. now rewrite Hc, He.
  - unfold renderedCommand. intros cmd H.
    destruct (currentStep w) as [[]|] eqn:E; try discriminate.
    apply continueDisabled_false, Hform. cbn. lia.
  - intros H. cbn [handle] in H.
    destruct (currentStep w) as [[]|] eqn:E; try congruence.
    apply continueDisabled_false, Hform. cbn. lia.
Qed.

Lemma required_fields_gate_witness :
  handle ClickForward (exec fillOnlyRepo initialState) = exec fillOnlyRepo initialState
  /\ repoUrl (formData (exec walkToRun initialState)) <> ""
  /\ baseUrl (formData (exec walkToRun initialState)) <> "".
Proof.
  split.
  - apply (proj1 (proj2 (required_fields_gate fillOnlyRepo)));
      [reflexivity | right; reflexivity].
  - apply (proj1 (proj2 (proj2 (required_fields_gate walkToRun)))
             (generateCommand (formData (exec walkToRun initialState)))).
    reflexivity.
Defined.

(** *** The generated command *)

(** The command with the quotes and blanks that delimit its parts made
    explicit. *)
Lemma generateCommand_parts (fd : FormData) :
  generateCommand fd =
  ("source .venv/bin/activate && python3 -m secagent.cli --repo"
   ++ String " " (String "034" (repoUrl fd
   ++ String "034" (String " " ("--base-url"
   ++ String " " (String "034" (baseUrl fd
   ++ String "034" (String " " ("--ollama-model"
   ++ String " " (String "034" (ollamaModel fd
   ++ String "034" (String " " ("--concurrency"
   ++ String " " (numberToString (concurrency fd)
   ++ String " " ("--delay-ms"
   ++ String " " (numberToString (delayMs fd)
   ++ String " " ("--verbose"
   ++ (if truthy (authHeader fd)
       then String " " ("--auth-header"
            ++ String " " (String "034" (authHeader fd
            ++ String "034" (if unsafe fd then " --unsafe" else ""))))
       else if unsafe fd then " --unsafe" else ""))))))))))))))))))%string.
Proof.
  unfold generateCommand, quoted, dq.
  destruct (truthy (authHeader fd)), (unsafe fd);
    rewrite ?append_assoc; cbn [append];
    rewrite ?append_assoc; cbn [append];
    rewrite ?append_empty_r; reflexivity.
Qed.

Lemma unsafeFlag_nonempty : unsafeFlag <> "".
Proof. discriminate. Qed.

(** Splits [includes unsafeFlag _] at every quote and blank, neither of
    which occurs in the flag. *)
Ltac cut_at_separators :=
  repeat match goal with
  | |- context [includes unsafeFlag (?a ++ String ?c ?b)] =>
      rewrite (includes_sep unsafeFlag c b unsafeFlag_nonempty eq_refl a)
  | |- context [includes unsafeFlag (String ?c ?b)] =>
      rewrite (includes_sep_head unsafeFlag c b unsafeFlag_nonempty eq_refl)
  end.

(** C3, as the claim words it: a repository URL that closes its quote and
    goes on with [--unsafe] puts the flag in the command, as an argument of
    its own, although the unsafe option is off. *)
Lemma unsafe_text_without_unsafe_option :
  let fd := onRepoUrlChange injectedRepoUrl initialFormData in
  unsafe fd = false
  /\ includes "--unsafe" (generateCommand fd) = true
  /\ generateCommand fd =
     ("source .venv/bin/activate && python3 -m secagent.cli --repo "
      ++ dq ++ "x" ++ dq ++ " --unsafe " ++ dq ++ dq
      ++ " --base-url " ++ dq ++ dq ++ " --ollama-model " ++ dq
      ++ "llama3.2:latest" ++ dq
      ++ " --concurrency 3 --delay-ms 200 --verbose")%string.
Proof. repeat split; reflexivity. Qed.

(** C3, amended: when none of the free-text fields (repository URL, base
    URL, authentication header, model name) holds the text [--unsafe]
    itself, the generated command contains [--unsafe] exactly when the
    unsafe option is on. *)
Theorem command_has_unsafe_flag_iff (fd : FormData) :
  includes "--unsafe" (repoUrl fd) = false ->
  includes "--unsafe" (baseUrl fd) = false ->
  includes "--unsafe" (authHeader fd) = false ->
  includes "--unsafe" (ollamaModel fd) = false ->
  includes "--unsafe" (generateCommand fd) = unsafe fd.
Proof.
  intros Hrepo Hbase Hauth Hmodel.
  rewrite generateCommand_parts. fold unsafeFlag in *.
  assert (Hnum : forall z, includes unsafeFlag (numberToString z) = false).
  { intros z. now apply (includes_numberToString unsafeFlag "u"). }
  destruct (truthy (authHeader fd)), (unsafe fd);
    cut_at_separators;
    rewrite ?Hrepo, ?Hbase, ?Hauth, ?Hmodel, ?Hnum; reflexivity.
Qed.

Lemma command_has_unsafe_flag_iff_witness :
  let fd := onUnsafeChange (Checked true)
              (onAuthHeaderChange "Authorization: Bearer t"
                 (onBaseUrlChange "https://api.example.com"
                    (onRepoUrlChange "https://github.com/u/api" initialFormData))) in
  includes "--unsafe" (generateCommand fd) = unsafe fd.
Proof.
  intros fd. apply (command_has_unsafe_flag_iff fd); reflexivity.
Defined.

(** *** The concurrency field *)


End WizardFacts.

(** ** Facts about the pipeline model *)

Module PipelineFacts.

Import Pipeline.

Example normalize_sample :
  map endpointKey (normalize sampleIsParameter sampleCandidates)
  = [("DELETE", "/users/{param}"); ("GET", "/users/{param}")].
Proof. reflexivity. Qed.

Example normalize_sample_merge :
  map (fun e => (authRequired e, map ptype (eparams e), length (provenance e)))
      (normalize sampleIsParameter sampleCandidates)
  = [(true, ["integer"], 1%nat); (true, ["string"], 2%nat)].
Proof. reflexivity. Qed.

(** *** Normalizer *)

Section NormalizerFacts.

Variable isPathParameter : string -> bool.

#[local] Abbreviation candidateKey := (Pipeline.candidateKey isPathParameter).
#[local] Abbreviation addCandidate := (Pipeline.addCandidate isPathParameter).
#[local] Abbreviation groupCandidates := (Pipeline.groupCandidates isPathParameter).
#[local] Abbreviation normalize := (Pipeline.normalize isPathParameter).

Lemma Key_eqb_eq (a b : Key) : Key_eqb a b = true <-> a = b.
Proof.
  destruct a as [a1 a2], b as [b1 b2]. unfold Key_eqb. cbn.
  rewrite andb_true_iff, !String.eqb_eq. split.
  - intros [-> ->]. reflexivity.
  - intros [= -> ->]. auto.
Qed.

Lemma endpointKey_absorb (c : EndpointCandidate) (e : Endpoint) :
  endpointKey (absorb c e) = endpointKey e.
Proof. reflexivity. Qed.

Lemma endpointKey_fromCandidate (c : EndpointCandidate) :
  endpointKey (fromCandidate isPathParameter c) = candidateKey c.
Proof. reflexivity. Qed.

Lemma addCandidate_keys (c : EndpointCandidate) (groups : list Endpoint) (k : Key) :
  In k (map endpointKey (addCandidate c groups))
  <-> k = candidateKey c \/ In k (map endpointKey groups).
Proof.
  induction groups as [|e rest IH]; cbn [Pipeline.addCandidate map In].
  - rewrite endpointKey_fromCandidate. intuition.
  - destruct (Key_eqb (endpointKey e) (candidateKey c)) eqn:E; cbn [map In].
    + apply Key_eqb_eq in E. rewrite endpointKey_absorb. intuition congruence.
    + rewrite IH. intuition.
Qed.

Lemma addCandidate_NoDup (c : EndpointCandidate) (groups : list Endpoint) :
  NoDup (map endpointKey groups) ->
  NoDup (map endpointKey (addCandidate c groups)).
Proof.
  induction groups as [|e rest IH]; cbn [Pipeline.addCandidate map]; intros H.
  - constructor; [intros [] | constructor].
  - inversion H as [|k ks Hnotin Hrest]; subst.
    destruct (Key_eqb (endpointKey e) (candidateKey c)) eqn:E; cbn [map].
    + rewrite endpointKey_absorb. now constructor.
    + constructor; [|now apply IH].
      rewrite addCandidate_keys. intros [Hk|Hin]; [|contradiction].
      apply Key_eqb_eq in Hk. congruence.
Qed.

Lemma fold_addCandidate_NoDup (cs : list EndpointCandidate) :
  forall groups, NoDup (map endpointKey groups) ->
  NoDup (map endpointKey (fold_left (fun g c => addCandidate c g) cs groups)).
Proof.
  induction cs as [|c cs IH]; intros groups H; cbn.
  - exact H.
  - apply IH. now apply addCandidate_NoDup.
Qed.

Lemma fold_addCandidate_keys (cs : list EndpointCandidate) (k : Key) :
  forall groups,
  In k (map endpointKey (fold_left (fun g c => addCandidate c g) cs groups))
  <-> (exists c, In c cs /\ candidateKey c = k) \/ In k (map endpointKey groups).
Proof.
  induction cs as [|c cs IH]; intros groups; cbn [fold_left].
  - split; [now right | intros [(c & [] & _)|H]; exact H].
  - rewrite IH, addCandidate_keys. split.
    + intros [(c' & Hin & Hk)|[Hk|Hin]].
      * left. exists c'. split; [now right | exact Hk].
      * left. exists c. split; [now left | now symmetry].
      * now right.
    + intros [(c' & [->|Hin] & Hk)|Hin].
      * right. left. now symmetry.
      * left. now exists c'.
      * right. now right.
Qed.

Lemma insertEndpoint_perm (e : Endpoint) (sorted : list Endpoint) :
  Permutation (e :: sorted) (insertEndpoint e sorted).
Proof.
  induction sorted as [|x rest IH]; cbn.
  - reflexivity.
  - destruct (keyLeb (endpointKey e) (endpointKey x)); [reflexivity|].
    rewrite perm_swap. now constructor.
Qed.

Lemma sortEndpoints_perm (es : list Endpoint) :
  Permutation es (sortEndpoints es).
Proof.
  induction es as [|e es IH]; cbn.
  - constructor.
  - rewrite <- insertEndpoint_perm. now constructor.
Qed.

(** C2: in the inventory the Normalizer emits, no two Endpoints share
    (method, normalized path template); and the keys that occur are exactly
    the normalized keys of the candidates (one Endpoint per group). *)
Theorem normalize_keys_distinct (cs : list EndpointCandidate) :
  NoDup (map endpointKey (normalize cs))
  /\ forall k, In k (map endpointKey (normalize cs))
               <-> exists c, In c cs /\ candidateKey c = k.
Proof.
  unfold Pipeline.normalize.
  pose proof (sortEndpoints_perm (groupCandidates cs)) as P.
  apply (Permutation_map endpointKey) in P.
  split.
  - apply (Permutation_NoDup P).
    apply fold_addCandidate_NoDup. constructor.
  - intros k. split.
    + intros H. apply (Permutation_in _ (Permutation_sym P)) in H.
      apply fold_addCandidate_keys in H. destruct H as [H|[]]. exact H.
    + intros H. apply (Permutation_in _ P).
      apply fold_addCandidate_keys. now left.
Qed.

End NormalizerFacts.

(** *** Planner *)

Example plan_safe :
  map (fun tc => (emethod (endpoint tc), mutation tc))
      (plan (fun _ => true) (fun _ => false) (fun _ => false) None
            (sampleContext 2 false)
            [sampleEndpoint "DELETE"; sampleEndpoint "GET"])
  = [("GET", Baseline); ("GET", IdDecrement); ("GET", IdIncrement);
     ("GET", StripAuthHeader); ("GET", MalformedAuthHeader)].
Proof. reflexivity. Qed.

Example plan_unsafe_length :
  length (plan (fun _ => true) (fun _ => false) (fun _ => false) None
               (sampleContext 2 true)
               [sampleEndpoint "DELETE"; sampleEndpoint "GET"]) = 10%nat.
Proof. reflexivity. Qed.

Lemma allowed_safe (ctx : RunContext) (tc : TestCase) :
  unsafe ctx = false -> allowed ctx tc = true -> mutating tc = false.
Proof.
  unfold allowed. intros -> H. cbn in H. now apply negb_true_iff in H.
Qed.

Lemma plan_allowed looksLikeIdentifier looksLikeUuid carriesJwt foreignId
      (ctx : RunContext) (inventory : list Endpoint) (tc : TestCase) :
  In tc (plan looksLikeIdentifier looksLikeUuid carriesJwt foreignId ctx inventory) ->
  allowed ctx tc = true.
Proof. unfold plan. intros H. now apply filter_In in H. Qed.

(** *** Execution engine *)

Lemma replaceAt_length {A} (x : A) (xs : list A) :
  forall i, length (replaceAt i x xs) = length xs.
Proof.
  induction xs as [|y xs IH]; intros [|i]; cbn; auto.
Qed.

Lemma replaceAt_Forall {A} (P : A -> Prop) (x : A) (xs : list A) :
  P x -> Forall P xs -> forall i, Forall P (replaceAt i x xs).
Proof.
  intros Hx H. induction H as [|y ys Hy Hys IH]; intros [|i]; cbn;
    constructor; auto.
Qed.

Lemma nth_error_Forall {A} (P : A -> Prop) (xs : list A) (i : nat) (x : A) :
  Forall P xs -> nth_error xs i = Some x -> P x.
Proof.
  intros H E. rewrite Forall_forall in H. apply H.
  now apply nth_error_In with i.
Qed.

Section EngineFacts.

Variable ctx : RunContext.
Variable classify : TestCase -> list TestResult -> Z -> string -> Outcome.

#[local] Abbreviation step := (Pipeline.step ctx classify).
#[local] Abbreviation reachable := (Pipeline.reachable ctx classify).

#[local] Abbreviation workerAllowed := (Pipeline.workerAllowed ctx).
#[local] Abbreviation gated := (Pipeline.gated ctx).

Lemma start_gated (thePlan : list TestCase) : gated (start ctx thePlan).
Proof.
  split; cbn; [|constructor].
  induction (concurrency ctx); cbn; constructor; cbn; auto.
Qed.

Lemma step_gated (st st' : Engine) : gated st -> step st st' -> gated st'.
Proof.
  intros [Hw Hd] Hstep.
  destruct Hstep; split; cbn [workers dispatched]; try assumption;
    try (apply replaceAt_Forall; [cbn; auto | assumption]);
    try (apply Forall_app; split; [assumption | repeat constructor]).
  all: match goal with
       | E : nth_error (workers _) _ = Some _ |- _ =>
           exact (nth_error_Forall workerAllowed _ _ _ Hw E)
       end.
Qed.

Lemma reachable_gated (thePlan : list TestCase) (st : Engine) :
  reachable thePlan st -> gated st.
Proof.
  induction 1 as [|st st' _ IH Hstep].
  - apply start_gated.
  - exact (step_gated st st' IH Hstep).
Qed.

Lemma step_pool (st st' : Engine) :
  step st st' -> length (workers st') = length (workers st).
Proof.
  intros Hstep. destruct Hstep; cbn [workers];
    try reflexivity; apply replaceAt_length.
Qed.

Lemma reachable_pool (thePlan : list TestCase) (st : Engine) :
  reachable thePlan st -> length (workers st) = concurrency ctx.
Proof.
  induction 1 as [|st st' _ IH Hstep].
  - cbn. apply repeat_length.
  - rewrite (step_pool st st' Hstep). exact IH.
Qed.

(** C7: in every state a run passes through, the number of requests in
    flight is at most the configured concurrency. *)
Theorem in_flight_bounded (thePlan : list TestCase) (st : Engine) :
  reachable thePlan st -> (inFlight st <= concurrency ctx)%nat.
Proof.
  intros H. rewrite <- (reachable_pool thePlan st H).
  apply filter_length_le.
Qed.

(** C1: with the unsafe flag off, the plan holds no mutating TestCase, and
    whatever plan the engine is given (filtered or not), no mutating
    TestCase is among the requests handed to the network layer: their
    count is zero in every state of the run. *)
Theorem safe_mode_blocks_mutating
        looksLikeIdentifier looksLikeUuid carriesJwt foreignId
        (inventory : list Endpoint) (thePlan : list TestCase) (st : Engine) :
  unsafe ctx = false ->
  reachable thePlan st ->
  (forall tc,
     In tc (plan looksLikeIdentifier looksLikeUuid carriesJwt foreignId ctx inventory) ->
     mutating tc = false)
  /\ (forall tc, In tc (dispatched st) -> mutating tc = false)
  /\ dispatchedMutating st = 0%nat.
Proof.
  intros Hsafe Hreach.
  destruct (reachable_gated thePlan st Hreach) as [_ Hd].
  rewrite Forall_forall in Hd.
  split; [|split].
  - intros tc H. apply (allowed_safe ctx tc Hsafe). now apply plan_allowed in H.
  - intros tc H. apply (allowed_safe ctx tc Hsafe). now apply Hd.
  - unfold dispatchedMutating. apply length_zero_iff_nil.
    destruct (filter mutating (dispatched st)) as [|tc l] eqn:E; [reflexivity|].
    assert (Hin : In tc (filter mutating (dispatched st))) by (rewrite E; now left).
    apply filter_In in Hin as [Hin Hm].
    rewrite (allowed_safe ctx tc Hsafe (Hd tc Hin)) in Hm. discriminate.
Qed.

End EngineFacts.

Lemma sampleRunning_reachable :
  reachable (sampleContext 2 false) sampleClassify [deleteCase; getCase] sampleRunning.
Proof.
  set (ctx := sampleContext 2 false).
  set (s0 := start ctx [deleteCase; getCase]).
  set (s1 := {| queue := [getCase]; workers := [Idle; Idle];
                results := [outcomeResult deleteCase UnsafeDisabled];
                dispatched := []; aborted := false |}).
  set (s2 := {| queue := []; workers := [Holding getCase; Idle];
                results := [outcomeResult deleteCase UnsafeDisabled];
                dispatched := []; aborted := false |}).
  apply reach_step with (st := s2).
  - apply reach_step with (st := s1).
    + apply reach_step with (st := s0).
      * apply reach_start.
      * apply (Reject ctx sampleClassify s0 0%nat deleteCase [getCase]); reflexivity.
    + apply (Take ctx sampleClassify s1 0%nat getCase []); reflexivity.
  - apply (Issue ctx sampleClassify s2 0%nat getCase); reflexivity.
Qed.

Lemma in_flight_bounded_witness :
  (inFlight sampleRunning <= concurrency (sampleContext 2 false))%nat.
Proof.
  exact (in_flight_bounded (sampleContext 2 false) sampleClassify
           [deleteCase; getCase] sampleRunning sampleRunning_reachable).
Defined.

Lemma safe_mode_blocks_mutating_witness :
  (forall tc,
     In tc (plan (fun _ => true) (fun _ => false) (fun _ => false) None
                 (sampleContext 2 false)
                 [sampleEndpoint "DELETE"; sampleEndpoint "GET"]) ->
     mutating tc = false)
  /\ (forall tc, In tc (dispatched sampleRunning) -> mutating tc = false)
  /\ dispatchedMutating sampleRunning = 0%nat.
Proof.
  apply (safe_mode_blocks_mutating (sampleContext 2 false) sampleClassify
           (fun _ => true) (fun _ => false) (fun _ => false) None
           [sampleEndpoint "DELETE"; sampleEndpoint "GET"]
           [deleteCase; getCase] sampleRunning).
  - reflexivity.
  - exact sampleRunning_reachable.
Defined.

End PipelineFacts.

(** ** Further facts about the wizard *)

Module WizardMoreFacts.

Import Js JsFacts Wizard WizardFacts WizardView.

(** *** The end of the generated command *)

Lemma length_append (a b : string) :
  String.length (a ++ b) = (String.length a + String.length b)%nat.
Proof. induction a as [|x a IH]; cbn; [reflexivity | now rewrite IH]. Qed.

Lemma eqb_length (a b : string) :
  String.length a <> String.length b -> String.eqb a b = false.
Proof.
  intros H. destruct (String.eqb_spec a b) as [->|]; [contradiction | reflexivity].
Qed.

(** A suffix no longer than [b] is looked for in [b] alone. *)
Lemma endsWith_app_long (b suffix : string) :
  (String.length suffix <= String.length b)%nat ->
  forall a, endsWith (a ++ b) suffix = endsWith b suffix.
Proof.
  intros Hlen. induction a as [|x a IH]; [reflexivity|].
  cbn [append endsWith]. rewrite IH, eqb_length; [reflexivity|].
  cbn [String.length]. rewrite length_append. lia.
Qed.

Lemma snoc_inj (c d : ascii) :
  forall a p : string, (a ++ String c "")%string = (p ++ String d "")%string -> c = d.
Proof.
  induction a as [|x a IH]; intros [|y p] H; cbn in H.
  - now injection H.
  - injection H as _ H. destruct p; discriminate.
  - injection H as _ H. destruct a; discriminate.
  - injection H as _ H. now apply (IH p).
Qed.

(** A string ending in [c] does not end with a suffix ending in another
    character. *)
Lemma endsWith_other_last (c d : ascii) (p : string) :
  c <> d -> forall a, endsWith (a ++ String c "") (p ++ String d "") = false.
Proof.
  intros Hcd. induction a as [|x a IH].
  - cbn [append endsWith].
    destruct (String.eqb_spec (String c "") (p ++ String d "")) as [E|_].
    + exfalso. apply Hcd. now apply (snoc_inj c d "" p).
    + destruct p; reflexivity.
  - cbn [append endsWith]. rewrite IH, orb_false_r.
    destruct (String.eqb_spec (String x (a ++ String c "")) (p ++ String d "")) as [E|_];
      [|reflexivity].
    exfalso. apply Hcd. now apply (snoc_inj c d (String x a) p).
Qed.

(** X1: whatever the form holds, the command ends with [ --unsafe] exactly
    when the unsafe option is on. *)
Theorem command_ends_with_unsafe_iff (fd : FormData) :
  endsWith (generateCommand fd) " --unsafe" = unsafe fd.
Proof.
  unfold generateCommand, quoted.
  destruct (unsafe fd).
  - apply endsWith_app.
  - destruct (truthy (authHeader fd)).
    + rewrite <- !append_assoc.
      change dq with (String "034" "") at 8.
      apply (endsWith_other_last "034" "e" " --unsaf"). discriminate.
    + rewrite <- !append_assoc.
      now rewrite endsWith_app_long by (cbn; lia).
Qed.

(** *** The authentication header in the command *)

Lemma authFlag_nonempty : authFlag <> "".
Proof. discriminate. Qed.

Ltac cut_at_auth_separators :=
  repeat match goal with
  | |- context [includes authFlag (?a ++ String ?c ?b)] =>
      rewrite (includes_sep authFlag c b authFlag_nonempty eq_refl a)
  | |- context [includes authFlag (String ?c ?b)] =>
      rewrite (includes_sep_head authFlag c b authFlag_nonempty eq_refl)
  end.

(** X2: when the repository URL, the base URL and the model name do not hold
    the text [--auth-header] themselves, the command contains it exactly
    when the authentication header field is non-empty: an empty header is
    left out, not passed as an empty argument. *)
Theorem command_has_auth_header_iff (fd : FormData) :
  includes "--auth-header" (repoUrl fd) = false ->
  includes "--auth-header" (baseUrl fd) = false ->
  includes "--auth-header" (ollamaModel fd) = false ->
  includes "--auth-header" (generateCommand fd) = truthy (authHeader fd).
Proof.
  intros Hrepo Hbase Hmodel.
  rewrite generateCommand_parts. fold authFlag in *.
  assert (Hnum : forall z, includes authFlag (numberToString z) = false).
  { intros z. now apply (includes_numberToString authFlag "u"). }
  destruct (truthy (authHeader fd)), (unsafe fd);
    cut_at_auth_separators;
    rewrite ?Hrepo, ?Hbase, ?Hmodel, ?Hnum; reflexivity.
Qed.

Lemma command_has_auth_header_iff_witness :
  let fd := onAuthHeaderChange "Authorization: Bearer t"
              (onBaseUrlChange "https://api.example.com"
                 (onRepoUrlChange "https://github.com/u/api" initialFormData)) in
  includes "--auth-header" (generateCommand fd) = truthy (authHeader fd).
Proof.
  intros fd. apply (command_has_auth_header_iff fd); reflexivity.
Defined.

(** *** What the form always satisfies *)

Lemma formData_nextStep (c : StepValue) (w : State) :
  formData (nextStep c w) = formData w.
Proof. unfold nextStep. now destruct (_ <? _). Qed.

Lemma formData_prevStep (c : StepValue) (w : State) :
  formData (prevStep c w) = formData w.
Proof. unfold prevStep. now destruct (_ >? _). Qed.

Lemma formData_tick (w : State) : formData (tick w) = formData w.
Proof.
  unfold tick. destruct (interval w) as [iv|]; [|reflexivity].
  destruct (_ <? _).
  - now destruct (at_ phases (currentPhase iv)).
  - now rewrite formData_nextStep.
Qed.

Lemma orElse_nonzero (v : option Z) (d : Z) : d <> 0 -> orElse v d <> 0.
Proof.
  intros Hd. destruct v as [n|]; cbn; [|exact Hd].
  destruct (Z.eqb_spec n 0); assumption.
Qed.

Lemma initial_formOk : formOk initialFormData.
Proof. repeat split; cbn; [lia | tauto]. Qed.

Lemma handle_formOk (e : Event) (w : State) :
  formOk (formData w) -> formOk (formData (handle e w)).
Proof.
  intros Hok. pose proof Hok as (Hd & Hc & Hm).
  destruct e; cbn [handle]; unfold onConfigure;
    try (destruct (existsb (String.eqb value) modelOptions) eqn:Hopt; [|exact Hok]);
    destruct (currentStep w) as [[]|];
    repeat match goal with
           | |- context [if ?b then _ else _] => destruct b
           end;
    rewrite ?formData_nextStep, ?formData_prevStep, ?formData_tick;
    try exact Hok; try exact initial_formOk;
    repeat split; cbn; try assumption.
  - (* the model select *)
    apply existsb_exists in Hopt as (m & Hin & Heq).
    apply String.eqb_eq in Heq. now subst m.
  - (* the concurrency field *)
    apply orElse_nonzero. lia.
Qed.

(** X3: in every state the page can reach, the delay is still 200 ms, the
    concurrency is not zero, and the model is one of the options of the
    select. *)
Theorem form_always_ok (es : list Event) :
  let fd := formData (exec es initialState) in
  delayMs fd = 200
  /\ concurrency fd <> 0
  /\ In (ollamaModel fd) modelOptions.
Proof.
  cbv zeta. change (formOk (formData (exec es initialState))).
  induction es as [|e es IH] using rev_ind.
  - exact initial_formOk.
  - rewrite exec_snoc. now apply handle_formOk.
Qed.

(** *** Where the form can change *)

(** X4: off the configure screen, and apart from "Run Another Analysis", no
    event changes the form, hence none changes the command. *)
Theorem form_changes_only_on_configure (e : Event) (w : State) :
  currentStep w <> Some configure ->
  e <> ClickRunAnother ->
  formData (handle e w) = formData w
  /\ generateCommand (formData (handle e w)) = generateCommand (formData w).
Proof.
  intros Hstep He.
  assert (H : formData (handle e w) = formData w).
  { destruct e; cbn [handle]; unfold onConfigure;
      try (destruct (existsb (String.eqb value) modelOptions));
      destruct (currentStep w) as [[]|] eqn:E;
      repeat match goal with
             | |- context [if ?b then _ else _] => destruct b
             end;
      rewrite ?formData_nextStep, ?formData_prevStep, ?formData_tick;
      try reflexivity; congruence. }
  split; [exact H | now rewrite H].
Qed.

Lemma form_changes_only_on_configure_witness :
  formData (handle (TypeRepoUrl "other") (exec walkToRun initialState))
  = formData (exec walkToRun initialState)
  /\ generateCommand (formData (handle (TypeRepoUrl "other") (exec walkToRun initialState)))
     = generateCommand (formData (exec walkToRun initialState)).
Proof.
  apply (form_changes_only_on_configure (TypeRepoUrl "other") (exec walkToRun initialState));
    discriminate.
Defined.

(** *** The simulated analysis *)



(** X6: from the run screen, Start followed by [k <= 6] timer firings leaves
    the wizard on the run screen, running, with the progress of the
    phases reached so far; the seventh firing stops the timer, marks "run"
    completed and shows the results, the form untouched; later firings do
    nothing. *)
Theorem start_then_seven_ticks (w : State) :
  currentStep w = Some run ->
  isRunning w = false ->
  (forall k, (k <= 6)%nat ->
     let v := exec (ClickStart :: ticks k) w in
     currentStep v = Some run
     /\ isRunning v = true
     /\ progress v = nth k [0; 10; 30; 50; 60; 80; 100] 0
     /\ completedSteps v = completedSteps w)
  /\ (let v := exec (ClickStart :: ticks 7) w in
      currentStep v = Some results
      /\ isRunning v = false
      /\ interval v = None
      /\ progress v = 100
      /\ formData v = formData w
      /\ completedSteps v = setAdd (Some run) (completedSteps w)
      /\ handle Tick v = v).
Proof.
  destruct w as [cur comp fd prog running iv]. cbn [currentStep isRunning].
  intros -> ->. split.
  - intros k Hk.
    do 7 (destruct k as [|k]; [repeat split; reflexivity|]). lia.
  - repeat split; reflexivity.
Qed.

Lemma start_then_seven_ticks_witness :
  currentStep (exec (ClickStart :: ticks 7) (exec walkToRun initialState)) = Some results
  /\ progress (exec (ClickStart :: ticks 3) (exec walkToRun initialState)) = 50.
Proof.
  destruct (start_then_seven_ticks (exec walkToRun initialState) eq_refl eq_refl)
    as [Hk (Hres & _)].
  split; [exact Hres|].
  exact (proj1 (proj2 (proj2 (Hk 3%nat ltac:(repeat constructor))))).
Defined.

(** *** Going forward and back *)

(** X7: [prevStep] undoes the move of [nextStep] (except on "results", where
    [nextStep] does not move), [nextStep] undoes the move of [prevStep]
    (except on "welcome"), and neither touches the form. *)
Theorem next_prev_round_trip (w : State) (s : Step) :
  currentStep w = Some s ->
  (s <> results ->
   currentStep (navigate CallPrev (navigate CallNext w)) = Some s)
  /\ (s <> welcome ->
      currentStep (navigate CallNext (navigate CallPrev w)) = Some s)
  /\ formData (navigate CallPrev (navigate CallNext w)) = formData w
  /\ formData (navigate CallNext (navigate CallPrev w)) = formData w.
Proof.
  destruct w as [cur comp fd prog running iv]. cbn [currentStep].
  intros ->. destruct s; repeat split; intros; try reflexivity; congruence.
Qed.

Lemma next_prev_round_trip_witness :
  currentStep (navigate CallPrev (navigate CallNext (exec fillOnlyRepo initialState)))
  = Some configure
  /\ currentStep (navigate CallNext (navigate CallPrev (exec fillOnlyRepo initialState)))
     = Some configure.
Proof.
  destruct (next_prev_round_trip (exec fillOnlyRepo initialState) configure eq_refl)
    as (H1 & H2 & _).
  split; [apply H1 | apply H2]; discriminate.
Defined.

(** *** The progress text *)

Ltac decide_tests :=
  repeat match goal with
  | |- context [?a >? ?b] => rewrite (Z.gtb_ltb a b)
  | |- context [?a <=? ?b] => destruct (Z.leb_spec a b); try lia
  | |- context [?a <? ?b] => destruct (Z.ltb_spec a b); try lia
  end.

(** X8: for every progress value exactly one line of text is rendered under
    the bar, and at the progress value of each phase of [simulateRun] it is
    the line that names that phase. *)
Theorem one_progress_label (p : Z) :
  exists label,
    progressLabels p = [label]
    /\ forall name, In (name, p) phaseTable ->
                    endsWith label (name ++ "...") = true.
Proof.
  unfold progressLabels.
  assert (C : p <= 10 \/ 10 < p <= 30 \/ 30 < p <= 50 \/ 50 < p <= 60
              \/ 60 < p <= 80 \/ 80 < p) by lia.
  destruct C as [C|[C|[C|[C|[C|C]]]]]; decide_tests;
    cbn [andb app]; eexists; (split; [reflexivity|]);
    intros name Hin; cbn [phaseTable In] in Hin;
    repeat (destruct Hin as [Hin|Hin];
            [injection Hin as <- Hp; try lia; subst p; reflexivity|]);
    destruct Hin.
Qed.

Example phaseTable_progress : map snd phaseTable = phases.
Proof. reflexivity. Qed.

(** *** Run Another Analysis *)

Lemma handle_sameButProgress (e : Event) (a b : State) :
  sameButProgress a b -> sameButProgress (handle e a) (handle e b).
Proof.
  destruct a as [cur comp fd prog running iv], b as [cur' comp' fd' prog' running' iv'].
  unfold sameButProgress. cbn [currentStep completedSteps formData isRunning interval].
  intros (<- & <- & <- & <- & <-).
  destruct e, cur as [[]|], iv as [[ph cap]|];
    cbn [handle tick onConfigure interval currentStep formData isRunning
         currentPhase capturedStep];
    try (destruct (existsb (String.eqb value) modelOptions));
    unfold nextStep, prevStep;
    repeat match goal with
           | |- context [if ?c then _ else _] => destruct c
           | |- context [match at_ phases ?i with _ => _ end] => destruct (at_ phases i)
           end;
    repeat split; reflexivity.
Qed.

Lemma exec_sameButProgress (es : list Event) :
  forall a b, sameButProgress a b -> sameButProgress (exec es a) (exec es b).
Proof.
  induction es as [|e es IH]; intros a b H; cbn.
  - exact H.
  - apply IH. now apply handle_sameButProgress.
Qed.

(** X9: "Run Another Analysis" restarts the wizard: whatever is done next, the
    page behaves as a freshly loaded one; only the progress value of the
    finished run survives (until the next Start sets it to 0). *)
Theorem run_another_is_a_fresh_start (before after : list Event) :
  let w := exec before initialState in
  currentStep w = Some results ->
  sameButProgress (exec after (handle ClickRunAnother w)) (exec after initialState)
  /\ progress (handle ClickRunAnother w) = progress w.
Proof.
  intros w Hres.
  assert (Hw : Reachable w) by apply exec_Reachable, initial_Reachable.
  destruct Hw as (_ & Hiv & _).
  split.
  - apply exec_sameButProgress.
    cbn [handle]. rewrite Hres. unfold sameButProgress, runAnother. cbn.
    destruct (interval w) as [iv|].
    + destruct Hiv as (Hrun & _). congruence.
    + repeat split; assumption.
  - cbn [handle]. now rewrite Hres.
Qed.

Lemma run_another_is_a_fresh_start_witness :
  sameButProgress
    (exec [ClickForward]
       (handle ClickRunAnother
          (exec (walkToRun ++ ClickStart :: ticks 7)%list initialState)))
    (exec [ClickForward] initialState)
  /\ progress (handle ClickRunAnother
                 (exec (walkToRun ++ ClickStart :: ticks 7)%list initialState))
     = progress (exec (walkToRun ++ ClickStart :: ticks 7)%list initialState).
Proof.
  apply (run_another_is_a_fresh_start (walkToRun ++ ClickStart :: ticks 7)%list [ClickForward]).
  reflexivity.
Defined.

(** *** The completed steps *)

Lemma StepValue_eqb_eq (a b : StepValue) : StepValue_eqb a b = true <-> a = b.
Proof.
  destruct a as [[]|], b as [[]|]; cbn; split; intros H;
    try reflexivity; discriminate H.
Qed.

Lemma setAdd_In (x y : StepValue) (l : list StepValue) :
  In x (setAdd y l) <-> x = y \/ In x l.
Proof.
  unfold setAdd. destruct (existsb (StepValue_eqb y) l) eqn:E.
  - split; [now right|]. intros [->|H]; [|exact H].
    apply existsb_exists in E as (z & Hz & Hyz).
    apply StepValue_eqb_eq in Hyz. now subst z.
  - rewrite in_app_iff. cbn. intuition.
Qed.

Lemma setAdd_NoDup (y : StepValue) (l : list StepValue) :
  NoDup l -> NoDup (setAdd y l).
Proof.
  intros H. unfold setAdd. destruct (existsb (StepValue_eqb y) l) eqn:E; [exact H|].
  apply NoDup_app; [exact H | repeat constructor; intros [] |].
  intros x Hx [Hy|[]]. subst x.
  assert (T : existsb (StepValue_eqb y) l = true).
  { apply existsb_exists. exists y. split; [exact Hx | now apply StepValue_eqb_eq]. }
  congruence.
Qed.

Lemma initial_completedOk : completedOk initialState.
Proof.
  split; [constructor|]. split; [intros []|]. split; [intros []|].
  intros s H. destruct s; vm_compute in H; discriminate H.
Qed.

Lemma handle_completedOk (e : Event) (w : State) :
  Reachable w -> completedOk w -> completedOk (handle e w).
Proof.
  intros ([s Hs] & Hiv & _) (Hnd & Hnone & Hres & Hall).
  destruct w as [cur comp fd prog running iv].
  cbn [currentStep completedSteps interval isRunning] in *. subst cur.
  destruct e, s, iv as [[ph cap]|]; cbn [currentPhase capturedStep] in *.
  all: try (destruct Hiv as (Hrun & Hcap & Hr); try discriminate Hrun; subst cap).
  all: subst running.
  all: cbn [handle onConfigure tick currentStep formData isRunning interval
            currentPhase capturedStep].
  all: step_cases; try discriminate.
  all: unfold completedOk; split; [|split; [|split]].
  all: try (intros s' H; destruct s'; vm_compute in H; try discriminate H; clear H).
  all: cbn -[setAdd]; rewrite ?setAdd_In.
  all: try assumption.
  all: try (apply setAdd_NoDup; assumption).
  all: try (intros [E|E]; [discriminate E | contradiction]).
  all: try (constructor; fail).
  all: try (intros []; fail).
  all: try (left; reflexivity).
  all: try (right; apply Hall; reflexivity).
  all: apply Hall; reflexivity.
Qed.

(** X10: in every state the page can reach, the set of completed steps has no
    duplicate, holds no undefined value and never "results", and holds
    every step that comes before the current one: a screen is shown only
    after all earlier screens were left with their forward button. *)
Theorem completed_steps_invariant (es : list Event) :
  let w := exec es initialState in
  NoDup (completedSteps w)
  /\ ~ In None (completedSteps w)
  /\ ~ In (Some results) (completedSteps w)
  /\ forall s, stepIndex (Some s) < stepIndex (currentStep w) ->
               In (Some s) (completedSteps w).
Proof.
  cbv zeta. change (completedOk (exec es initialState)).
  induction es as [|e es IH] using rev_ind.
  - exact initial_completedOk.
  - rewrite exec_snoc. apply handle_completedOk; [|exact IH].
    apply exec_Reachable, initial_Reachable.
Qed.

(** *** What the concurrency field reads *)










(** *** The unsafe option *)

Lemma handle_keeps_unsafe_off (e : Event) (w : State) :
  (forall c, e <> CheckUnsafe c) ->
  unsafe (formData w) = false ->
  unsafe (formData (handle e w)) = false.
Proof.
  intros He Hu.
  destruct e; cbn [handle]; unfold onConfigure;
    try (destruct (existsb (String.eqb value) modelOptions));
    destruct (currentStep w) as [[]|];
    repeat match goal with
           | |- context [if ?b then _ else _] => destruct b
           end;
    rewrite ?formData_nextStep, ?formData_prevStep, ?formData_tick;
    try exact Hu; try reflexivity.
  all: exfalso; exact (He checked eq_refl).
Qed.

(** X12: the wizard never turns the unsafe option on by itself: after any
    events among which the checkbox was not used, the option is off. *)
Theorem unsafe_only_by_checkbox (es : list Event) :
  (forall c, ~ In (CheckUnsafe c) es) ->
  unsafe (formData (exec es initialState)) = false.
Proof.
  induction es as [|e es IH] using rev_ind; intros H.
  - reflexivity.
  - rewrite exec_snoc. apply handle_keeps_unsafe_off.
    + intros c ->. apply (H c). apply in_or_app. right. now left.
    + apply IH. intros c Hin. apply (H c). apply in_or_app. now left.
Qed.

Lemma unsafe_only_by_checkbox_witness :
  unsafe (formData (exec (walkToRun ++ ClickStart :: ticks 7)%list initialState)) = false.
Proof.
  apply (unsafe_only_by_checkbox (walkToRun ++ ClickStart :: ticks 7)%list).
  intros c H. cbn in H.
  repeat (destruct H as [H|H]; [discriminate H|]). exact H.
Defined.

End WizardMoreFacts.
